(** * EASTL [allocator_malloc]: dispatch to the platform's malloc family

    A shallow embedding of [include/EASTL/allocator_malloc.h].  The header is
    a class without data members whose member functions select, by
    preprocessor conditionals and by one run-time test on the requested
    alignment, which primitive of the C library is called.

    - the preprocessor environment is a record of the macros the header
      tests ([platform]);
    - a member function is a small program over the C library's allocation
      primitives ([prog]): it returns a value, tail-calls a primitive, or has
      undefined behaviour (a [size_t] remainder by zero);
    - the C library is a handler for those primitives over an abstract heap
      ([libc]); [run] executes a program against it and records the calls. *)

From Stdlib Require Import NArith ZArith Bool List String Lia.
Import ListNotations.

Open Scope N_scope.

(** ** C types *)

(** [size_t] is unsigned; the header only compares values and takes
    remainders, so no operation of the header can wrap. *)
Definition size_t : Set := N.

(** [void*] as the address it holds. *)
Definition void_ptr : Set := N.

Definition NULL : void_ptr := 0.

(** [int], the type of the ignored [flags] argument. *)
Definition c_int : Set := Z.

(** [const char*]: a null pointer or a C string. *)
Definition c_str : Set := option string.

(** [a % b] on [size_t]: undefined when [b] is zero. *)
Definition size_t_mod (a b : size_t) : option size_t :=
  if b =? 0 then None else Some (a mod b).

Definition is_pow2 (a : N) : Prop := exists k : N, a = 2 ^ k.

(** ** The preprocessor environment *)

Record platform : Set := {
  EA_PLATFORM_POSIX : bool;
  EA_PLATFORM_APPLE : bool;
  EA_PLATFORM_MICROSOFT : bool;
  (** the value of EASTL_ALIGNED_MALLOC_AVAILABLE when the build defines it
      before the header is read *)
  predefined_ALIGNED_MALLOC_AVAILABLE : option Z;
  (** EASTL_SYSTEM_ALLOCATOR_MIN_ALIGNMENT, defined by EASTL's configuration
      header *)
  EASTL_SYSTEM_ALLOCATOR_MIN_ALIGNMENT : size_t
}.

(** Lines 28-55: the header keeps a definition made by the build, and
    otherwise defines the macro as 1 on POSIX targets other than Apple and on
    Microsoft targets, and as 0 elsewhere. *)
Definition EASTL_ALIGNED_MALLOC_AVAILABLE (P : platform) : bool :=
  match predefined_ALIGNED_MALLOC_AVAILABLE P with
  | Some v => negb (v =? 0)%Z
  | None =>
      (EA_PLATFORM_POSIX P && negb (EA_PLATFORM_APPLE P))
      || EA_PLATFORM_MICROSOFT P
  end.

(** ** Programs over the C library's allocation primitives *)

Inductive alloc_call : Set :=
| malloc (n : size_t)
| memalign (alignment n : size_t)
| _aligned_malloc (n alignment : size_t)
| _aligned_offset_malloc (n alignment offset : size_t).

Inductive free_call : Set :=
| free (p : void_ptr)
| _aligned_free (p : void_ptr).

Inductive prog (R : Type) : Type :=
| Return (r : R)
| Undefined
| Alloc (c : alloc_call) (k : void_ptr -> prog R)
| Release (c : free_call) (k : unit -> prog R).

Arguments Return {R} r.
Arguments Undefined {R}.
Arguments Alloc {R} c k.
Arguments Release {R} c k.

(** [return f(args);] for an allocation primitive [f]. *)
Definition call (c : alloc_call) : prog void_ptr := Alloc c Return.

(** [f(p);] as the whole body of a [void] function. *)
Definition release (c : free_call) : prog unit := Release c Return.

Fixpoint bind {A B : Type} (m : prog A) (f : A -> prog B) : prog B :=
  match m with
  | Return a => f a
  | Undefined => Undefined
  | Alloc c k => Alloc c (fun p => bind (k p) f)
  | Release c k => Release c (fun u => bind (k u) f)
  end.

(** ** The class *)

Module allocator_malloc.

(** The class declares no data member. *)
Record t : Set := instance { }.

(** [allocator_malloc(const char* = NULL) { }] *)
Definition construct (pName : c_str) : t := instance.

(** [allocator_malloc(const allocator_malloc&) { }] *)
Definition copy_construct (x : t) : t := instance.

(** [allocator_malloc(const allocator_malloc&, const char* pName) { }] *)
Definition copy_construct_named (x : t) (pName : c_str) : t := instance.

(** [operator=(const allocator_malloc&) { return *this; }] *)
Definition operator_assign (this x : t) : t := this.

(** [bool operator==(const allocator_malloc&) { return true; }] *)
Definition operator_eq (this x : t) : bool := true.

(** [bool operator!=(const allocator_malloc&) { return false; }] *)
Definition operator_ne (this x : t) : bool := false.

(** [const char* get_name() const { return "allocator_malloc"; }] *)
Definition get_name (this : t) : string := "allocator_malloc"%string.

(** [void set_name(const char* pName) { }]: the object after the call. *)
Definition set_name (this : t) (pName : c_str) : t := this.

Section Dispatch.

Variable P : platform.

(** [void* allocate(size_t n, int flags = 0)], lines 91-98. *)
Definition allocate (this : t) (n : size_t) (flags : c_int)
  : prog void_ptr :=
  if EASTL_ALIGNED_MALLOC_AVAILABLE P && EA_PLATFORM_MICROSOFT P
  then call (_aligned_malloc n (EASTL_SYSTEM_ALLOCATOR_MIN_ALIGNMENT P))
  else call (malloc n).

(** [void* allocate(size_t n, size_t alignment, size_t alignmentOffset,
    int flags = 0)], lines 100-115.

    With the macro set, the [if] of line 103 governs one statement only:
    on Microsoft targets that is line 105, and line 106 (whose [else] is
    commented out) is the statement that follows it, reached when the
    test fails; line 114 is then unreachable.  On the other targets the
    [if] governs line 108 and a failed test falls to line 114.  Without
    the macro, [&&] evaluates the remainder only when the comparison
    holds. *)
Definition allocate_aligned (this : t)
    (n alignment alignmentOffset : size_t) (flags : c_int)
  : prog void_ptr :=
  if EASTL_ALIGNED_MALLOC_AVAILABLE P then
    match size_t_mod alignmentOffset alignment with
    | None => Undefined
    | Some r =>
        if EA_PLATFORM_MICROSOFT P then
          if r =? 0 then call (_aligned_malloc n alignment)
          else call (_aligned_offset_malloc n alignment alignmentOffset)
        else
          if r =? 0 then call (memalign alignment n)
          else Return NULL
    end
  else
    if alignment <=? EASTL_SYSTEM_ALLOCATOR_MIN_ALIGNMENT P then
      match size_t_mod alignmentOffset alignment with
      | None => Undefined
      | Some r => if r =? 0 then call (malloc n) else Return NULL
      end
    else Return NULL.

(** [void deallocate(void* p, size_t n)], lines 117-124. *)
Definition deallocate (this : t) (p : void_ptr) (n : size_t)
  : prog unit :=
  if EASTL_ALIGNED_MALLOC_AVAILABLE P && EA_PLATFORM_MICROSOFT P
  then release (_aligned_free p)
  else release (free p).

End Dispatch.

End allocator_malloc.

(** ** Ways of obtaining and relabelling an instance

    Every expression of the class's interface that yields an instance: the
    three constructors, assignment, and [set_name] (whose value here is the
    object it was called on). *)

Inductive usage : Set :=
| Construct (pName : c_str)
| CopyConstruct (x : usage)
| CopyConstructNamed (x : usage) (pName : c_str)
| Assign (dst src : usage)
| SetName (x : usage) (pName : c_str).

Fixpoint build (u : usage) : allocator_malloc.t :=
  match u with
  | Construct pName => allocator_malloc.construct pName
  | CopyConstruct x => allocator_malloc.copy_construct (build x)
  | CopyConstructNamed x pName =>
      allocator_malloc.copy_construct_named (build x) pName
  | Assign dst src => allocator_malloc.operator_assign (build dst) (build src)
  | SetName x pName => allocator_malloc.set_name (build x) pName
  end.

(** ** The C library as a handler *)

Record libc (heap : Type) : Type := {
  libc_alloc : alloc_call -> heap -> void_ptr * heap;
  libc_free : free_call -> heap -> heap
}.

Arguments libc_alloc {heap} l c h.
Arguments libc_free {heap} l c h.

Inductive event : Set :=
| Allocated (c : alloc_call) (p : void_ptr)
| Released (c : free_call).

(** [run L m h] executes [m] from heap [h]: the value returned, the heap
    left, and the calls made in order; [None] is undefined behaviour. *)
Fixpoint run {heap R : Type} (L : libc heap) (m : prog R) (h : heap)
  : option (R * heap * list event) :=
  match m with
  | Return r => Some (r, h, [])
  | Undefined => None
  | Alloc c k =>
      let (p, h1) := libc_alloc L c h in
      match run L (k p) h1 with
      | Some (r, h2, tr) => Some (r, h2, Allocated c p :: tr)
      | None => None
      end
  | Release c k =>
      match run L (k tt) (libc_free L c h) with
      | Some (r, h2, tr) => Some (r, h2, Released c :: tr)
      | None => None
      end
  end.

(** What the C library documents of a block it returns: [malloc] aligns to
    the minimum natural alignment, [memalign] and [_aligned_malloc] to the
    power of two they are given, [_aligned_offset_malloc] so that the address
    [offset] bytes into the block is a multiple of it. *)
Definition block_aligned (min_alignment : size_t) (c : alloc_call)
    (p : void_ptr) : Prop :=
  match c with
  | malloc _ => p mod min_alignment = 0
  | memalign alignment _ | _aligned_malloc _ alignment =>
      is_pow2 alignment -> p mod alignment = 0
  | _aligned_offset_malloc _ alignment offset =>
      is_pow2 alignment -> (p + offset) mod alignment = 0
  end.

(** A C library honours its documentation when every call either fails with
    a null pointer or returns a block aligned as documented. *)
Definition conforming {heap : Type} (min_alignment : size_t) (L : libc heap)
  : Prop :=
  forall c h,
    fst (libc_alloc L c h) = NULL
    \/ block_aligned min_alignment c (fst (libc_alloc L c h)).

(** The release primitive the C library pairs with each allocation
    primitive: [_aligned_free] for the two [_aligned_] allocators, [free] for
    [malloc] and [memalign]. *)
Definition requires_aligned_free (c : alloc_call) : bool :=
  match c with
  | malloc _ | memalign _ _ => false
  | _aligned_malloc _ _ | _aligned_offset_malloc _ _ _ => true
  end.

Definition matching_free (c : alloc_call) (p : void_ptr) : free_call :=
  if requires_aligned_free c then _aligned_free p else free p.

(** The alignment a call asks the library for ([malloc] asks for none). *)
Definition requested_alignment (c : alloc_call) : option size_t :=
  match c with
  | malloc _ => None
  | memalign alignment _ | _aligned_malloc _ alignment
  | _aligned_offset_malloc _ alignment _ => Some alignment
  end.

(** The size a call asks the library for. *)
Definition requested_size (c : alloc_call) : size_t :=
  match c with
  | malloc n | memalign _ n | _aligned_malloc n _
  | _aligned_offset_malloc n _ _ => n
  end.

(** ** The specification's capability flags and dispatch rules *)

(** "native aligned-allocate available" *)
Definition has_aligned_allocate (P : platform) : bool :=
  EASTL_ALIGNED_MALLOC_AVAILABLE P.

(** "native aligned-allocate-with-offset available": the Windows-family
    targets among those with aligned allocation. *)
Definition has_aligned_offset_allocate (P : platform) : bool :=
  EASTL_ALIGNED_MALLOC_AVAILABLE P && EA_PLATFORM_MICROSOFT P.

(** The platform's aligned-allocate primitive. *)
Definition aligned_allocate (P : platform) (n alignment : size_t)
  : alloc_call :=
  if EA_PLATFORM_MICROSOFT P then _aligned_malloc n alignment
  else memalign alignment n.

(** The specification's dispatch rules 1 to 3 as a test; rule 4 is its
    negation.  Rule 1: an offset primitive exists and the offset is not
    zero.  Rule 2: an aligned primitive exists and the offset is a multiple
    of the alignment.  Rule 3: no aligned primitive, the alignment is at most
    the minimum and the offset is a multiple of it. *)
Definition spec_satisfiable (P : platform) (alignment alignmentOffset : size_t)
  : bool :=
  (has_aligned_offset_allocate P && negb (alignmentOffset =? 0))
  || (has_aligned_allocate P && (alignmentOffset mod alignment =? 0))
  || (negb (has_aligned_allocate P)
      && (alignment <=? EASTL_SYSTEM_ALLOCATOR_MIN_ALIGNMENT P)
      && (alignmentOffset mod alignment =? 0)).

(** ** Concrete targets *)

Definition windows : platform :=
  {| EA_PLATFORM_POSIX := false; EA_PLATFORM_APPLE := false;
     EA_PLATFORM_MICROSOFT := true;
     predefined_ALIGNED_MALLOC_AVAILABLE := None;
     EASTL_SYSTEM_ALLOCATOR_MIN_ALIGNMENT := 16 |}.

Definition linux : platform :=
  {| EA_PLATFORM_POSIX := true; EA_PLATFORM_APPLE := false;
     EA_PLATFORM_MICROSOFT := false;
     predefined_ALIGNED_MALLOC_AVAILABLE := None;
     EASTL_SYSTEM_ALLOCATOR_MIN_ALIGNMENT := 16 |}.

Definition macos : platform :=
  {| EA_PLATFORM_POSIX := true; EA_PLATFORM_APPLE := true;
     EA_PLATFORM_MICROSOFT := false;
     predefined_ALIGNED_MALLOC_AVAILABLE := None;
     EASTL_SYSTEM_ALLOCATOR_MIN_ALIGNMENT := 16 |}.

(** A Microsoft target whose build defines EASTL_ALIGNED_MALLOC_AVAILABLE
    as 0 before the header is read. *)
Definition windows_malloc_only : platform :=
  {| EA_PLATFORM_POSIX := false; EA_PLATFORM_APPLE := false;
     EA_PLATFORM_MICROSOFT := true;
     predefined_ALIGNED_MALLOC_AVAILABLE := Some 0%Z;
     EASTL_SYSTEM_ALLOCATOR_MIN_ALIGNMENT := 16 |}.

(** A target that defines none of the platform macros the header tests. *)
Definition freestanding (min_alignment : size_t) : platform :=
  {| EA_PLATFORM_POSIX := false; EA_PLATFORM_APPLE := false;
     EA_PLATFORM_MICROSOFT := false;
     predefined_ALIGNED_MALLOC_AVAILABLE := None;
     EASTL_SYSTEM_ALLOCATOR_MIN_ALIGNMENT := min_alignment |}.

(** A C library to run against: a bump allocator over the addresses below
    [bump_limit], whose heap is the next unused address. *)
Definition bump_limit : N := 65536.

Definition align_up (x a : N) : N := (x + (a - 1)) / a * a.

Definition bump_place (min_alignment : size_t) (c : alloc_call) (h : N)
  : option (void_ptr * size_t) :=
  match c with
  | malloc n => Some (align_up h min_alignment, n)
  | memalign alignment n | _aligned_malloc n alignment =>
      Some (align_up h alignment, n)
  | _aligned_offset_malloc n alignment offset =>
      let q := align_up (h + offset) alignment in
      if offset <=? q then Some (q - offset, n) else None
  end.

Definition bump (min_alignment : size_t) : libc N :=
  {| libc_alloc c h :=
       match bump_place min_alignment c h with
       | Some (p, n) =>
           if (h <=? p) && (p + n <=? bump_limit) then (p, p + n)
           else (NULL, h)
       | None => (NULL, h)
       end;
     libc_free c h := h |}.

(** ** Arithmetic of alignments *)

Lemma is_pow2_nonzero (a : N) : is_pow2 a -> a <> 0.
Proof.
  intros [k ->]. apply N.pow_nonzero. discriminate.
Qed.

Lemma size_t_mod_defined (a b : size_t) :
  b <> 0 -> size_t_mod a b = Some (a mod b).
Proof.
  intros Hb. unfold size_t_mod.
  destruct (N.eqb_spec b 0) as [E | _]; [contradiction | reflexivity].
Qed.

(** A smaller power of two divides a larger one. *)
Lemma pow2_le_divides (a m : N) :
  is_pow2 a -> is_pow2 m -> a <= m -> exists q, m = q * a.
Proof.
  intros [k ->] [j ->] Hle.
  apply N.pow_le_mono_r_iff in Hle; [ | lia].
  exists (2 ^ (j - k)).
  rewrite <- N.pow_add_r. f_equal. lia.
Qed.

Lemma mod_zero_of_multiple (p a m : N) :
  (exists q, m = q * a) -> p mod m = 0 -> p mod a = 0.
Proof.
  intros [q ->] Hp.
  apply N.Div0.mod_divides in Hp. destruct Hp as [c ->].
  replace (q * a * c) with (q * c * a) by lia.
  apply N.Div0.mod_mul.
Qed.

Lemma add_mod_zero (p o a : N) :
  p mod a = 0 -> o mod a = 0 -> (p + o) mod a = 0.
Proof.
  intros Hp Ho. rewrite N.Div0.add_mod, Hp, Ho. simpl.
  apply N.Div0.mod_0_l.
Qed.

(** Reducing modulo the word size keeps divisibility by a power of two that
    fits the word. *)
Lemma wrap_keeps_alignment (x a w : N) :
  is_pow2 a -> a <= 2 ^ w -> x mod a = 0 -> (x mod 2 ^ w) mod a = 0.
Proof.
  intros Ha Hle Hx.
  assert (Hw : is_pow2 (2 ^ w)) by (exists w; reflexivity).
  destruct (pow2_le_divides a (2 ^ w) Ha Hw Hle) as [q Hq].
  pose proof (N.Div0.div_mod x (2 ^ w)) as Hdm.
  assert (H0 : (2 ^ w * (x / 2 ^ w)) mod a = 0).
  { rewrite Hq. replace (q * a * (x / (q * a))) with (q * (x / (q * a)) * a) by lia.
    apply N.Div0.mod_mul. }
  rewrite Hdm in Hx at 1.
  rewrite N.Div0.add_mod, H0 in Hx. simpl in Hx.
  rewrite N.Div0.mod_mod in Hx. exact Hx.
Qed.

Lemma align_up_aligned (x a : N) : align_up x a mod a = 0.
Proof.
  unfold align_up. apply N.Div0.mod_mul.
Qed.

(** ** Running a single call *)

Lemma run_call {heap : Type} (L : libc heap) (c : alloc_call) (h : heap) :
  run L (call c) h
  = Some (fst (libc_alloc L c h), snd (libc_alloc L c h),
          [Allocated c (fst (libc_alloc L c h))]).
Proof.
  unfold call. simpl. destruct (libc_alloc L c h); reflexivity.
Qed.

Lemma run_release {heap : Type} (L : libc heap) (c : free_call) (h : heap) :
  run L (release c) h = Some (tt, libc_free L c h, [Released c]).
Proof.
  reflexivity.
Qed.

Lemma call_inj (c c' : alloc_call) : call c = call c' -> c = c'.
Proof.
  unfold call. intros H. injection H. trivial.
Qed.

(** The bump allocator honours the C library's documentation. *)
Lemma bump_conforming (min_alignment : size_t) :
  conforming min_alignment (bump min_alignment).
Proof.
  intros c h. unfold bump. cbn [libc_alloc].
  destruct (bump_place min_alignment c h) as [[p n] | ] eqn:Hplace;
    [ | left; reflexivity].
  destruct ((h <=? p) && (p + n <=? bump_limit)); [ | left; reflexivity].
  right. cbn [fst].
  destruct c as [n0 | al n0 | n0 al | n0 al off]; cbn in Hplace |- *.
  - injection Hplace as <- _. apply align_up_aligned.
  - injection Hplace as <- _. intros _. apply align_up_aligned.
  - injection Hplace as <- _. intros _. apply align_up_aligned.
  - destruct (N.leb_spec off (align_up (h + off) al)) as [Hle | _];
      [ | discriminate].
    injection Hplace as <- _. intros _.
    replace (align_up (h + off) al - off + off) with (align_up (h + off) al)
      by lia.
    apply align_up_aligned.
Qed.

(** Unfolds the dispatch and settles the preprocessor flags and the
    remainder test. *)
Ltac dispatch :=
  unfold allocator_malloc.allocate, allocator_malloc.allocate_aligned,
    allocator_malloc.deallocate, has_aligned_offset_allocate,
    has_aligned_allocate, aligned_allocate in *;
  repeat match goal with
    | H : ?b = true |- context [?b] => rewrite H
    | H : ?b = false |- context [?b] => rewrite H
    | H : ?a <> 0 |- context [size_t_mod ?o ?a] =>
        rewrite (size_t_mod_defined o a H)
    end;
  cbn [andb orb negb].

(** * Alignment of the blocks returned *)

(** C1.  On every configuration of the preprocessor, against every C library
    that honours its documentation, a non-null block returned by the aligned
    [allocate] for a power-of-two [alignment] satisfies
    [(address + alignmentOffset) % alignment == 0], in unbounded arithmetic
    and in [size_t] arithmetic of any width holding [alignment].  The block
    comes from exactly one call: one that asks for the requested alignment,
    or [malloc] when the alignment is at most the platform minimum. *)
Theorem allocate_aligned_meets_alignment
    {heap : Type} (P : platform) (L : libc heap) (this : allocator_malloc.t)
    (n alignment alignmentOffset : size_t) (flags : c_int)
    (h h' : heap) (p : void_ptr) (tr : list event) :
  conforming (EASTL_SYSTEM_ALLOCATOR_MIN_ALIGNMENT P) L ->
  is_pow2 (EASTL_SYSTEM_ALLOCATOR_MIN_ALIGNMENT P) ->
  is_pow2 alignment ->
  run L (allocator_malloc.allocate_aligned P this n alignment alignmentOffset
           flags) h = Some (p, h', tr) ->
  p <> NULL ->
  (p + alignmentOffset) mod alignment = 0
  /\ (forall w, alignment <= 2 ^ w ->
        ((p + alignmentOffset) mod 2 ^ w) mod alignment = 0)
  /\ exists c, tr = [Allocated c p]
       /\ (requested_alignment c = Some alignment
           \/ (c = malloc n
               /\ alignment <= EASTL_SYSTEM_ALLOCATOR_MIN_ALIGNMENT P)).
Proof.
  intros HL Hmin Ha Hrun Hp.
  pose proof (is_pow2_nonzero _ Ha) as Ha0.
  assert (Hmain : (p + alignmentOffset) mod alignment = 0
    /\ exists c, tr = [Allocated c p]
       /\ (requested_alignment c = Some alignment
           \/ (c = malloc n
               /\ alignment <= EASTL_SYSTEM_ALLOCATOR_MIN_ALIGNMENT P))).
  { unfold allocator_malloc.allocate_aligned in Hrun.
    rewrite (size_t_mod_defined _ _ Ha0) in Hrun.
    destruct (EASTL_ALIGNED_MALLOC_AVAILABLE P).
    - destruct (EA_PLATFORM_MICROSOFT P);
        destruct (N.eqb_spec (alignmentOffset mod alignment) 0) as [Hoff | Hoff];
        try (rewrite run_call in Hrun);
        injection Hrun as Ep Eh Et; subst p; try contradiction;
        match type of Et with
        | [Allocated ?c _] = _ => destruct (HL c h) as [Hnull | Hal]
        end; try contradiction; cbn in Hal; specialize (Hal Ha);
        (split; [ | eexists; split; [symmetry; exact Et | left; reflexivity]]).
      + apply add_mod_zero; assumption.
      + exact Hal.
      + apply add_mod_zero; assumption.
    - destruct (N.leb_spec alignment (EASTL_SYSTEM_ALLOCATOR_MIN_ALIGNMENT P))
        as [Hle | Hgt].
      + destruct (N.eqb_spec (alignmentOffset mod alignment) 0) as [Hoff | Hoff].
        * rewrite run_call in Hrun. injection Hrun as Ep Eh Et. subst p.
          destruct (HL (malloc n) h) as [Hnull | Hal]; [contradiction | ].
          cbn in Hal. split.
          -- apply add_mod_zero; [ | assumption].
             apply (mod_zero_of_multiple _ _ _
                      (pow2_le_divides _ _ Ha Hmin Hle) Hal).
          -- eexists; split; [symmetry; exact Et | right; split; trivial].
        * injection Hrun as Ep _ _. subst p. contradiction.
      + injection Hrun as Ep _ _. subst p. contradiction. }
  destruct Hmain as [Hmod Hc]. split; [exact Hmod | split; [ | exact Hc]].
  intros w Hw. apply wrap_keeps_alignment; assumption.
Qed.

(** On a Microsoft target, 100 bytes aligned to 16 at offset 4 from a heap
    whose next unused address is 20: the block starts at 28. *)
Lemma allocate_aligned_meets_alignment_witness :
  run (bump 16)
      (allocator_malloc.allocate_aligned windows allocator_malloc.instance
         100 16 4 0%Z) 20
  = Some (28, 128, [Allocated (_aligned_offset_malloc 100 16 4) 28])
  /\ (28 + 4) mod 16 = 0.
Proof.
  split; [reflexivity | ].
  apply (allocate_aligned_meets_alignment windows (bump 16)
           allocator_malloc.instance 100 16 4 0%Z 20 128 28
           [Allocated (_aligned_offset_malloc 100 16 4) 28]).
  - apply bump_conforming.
  - exists 4. reflexivity.
  - exists 4. reflexivity.
  - reflexivity.
  - discriminate.
Defined.

(** * Which primitive the aligned overload calls on Microsoft targets *)

(** C2, as stated, fails: on a Microsoft target a non-zero offset that is a
    multiple of the alignment goes to [_aligned_malloc], not to
    [_aligned_offset_malloc]. *)
Lemma nonzero_multiple_offset_uses_aligned_malloc :
  allocator_malloc.allocate_aligned windows allocator_malloc.instance
    100 8 8 0%Z = call (_aligned_malloc 100 8)
  /\ ~ (has_aligned_offset_allocate windows = true ->
        8 <> 0 ->
        allocator_malloc.allocate_aligned windows allocator_malloc.instance
          100 8 8 0%Z = call (_aligned_offset_malloc 100 8 8)).
Proof.
  split; [reflexivity | ].
  intros H. specialize (H eq_refl). 
  assert (E : 8 <> 0) by discriminate.
  apply H in E. apply call_inj in E. discriminate E.
Qed.

(** C2, amended.  Where the offset primitive exists, the aligned [allocate]
    calls [_aligned_offset_malloc] with the requested size, alignment and
    offset exactly when the offset is not a multiple of the alignment;
    when it is a multiple (zero or not) it calls [_aligned_malloc] with the
    requested size and alignment. *)
Theorem offset_malloc_iff_offset_not_multiple
    (P : platform) (this : allocator_malloc.t)
    (n alignment alignmentOffset : size_t) (flags : c_int) :
  has_aligned_offset_allocate P = true ->
  alignment <> 0 ->
  (alignmentOffset mod alignment <> 0 ->
     allocator_malloc.allocate_aligned P this n alignment alignmentOffset flags
     = call (_aligned_offset_malloc n alignment alignmentOffset))
  /\ (alignmentOffset mod alignment = 0 ->
     allocator_malloc.allocate_aligned P this n alignment alignmentOffset flags
     = call (_aligned_malloc n alignment)).
Proof.
  intros Hcap Ha. apply andb_prop in Hcap. destruct Hcap as [Hav Hms].
  dispatch.
  destruct (N.eqb_spec (alignmentOffset mod alignment) 0) as [E | E];
    split; intros E'; solve [reflexivity | contradiction].
Qed.

Lemma offset_malloc_iff_offset_not_multiple_witness :
  allocator_malloc.allocate_aligned windows allocator_malloc.instance
    100 16 4 0%Z = call (_aligned_offset_malloc 100 16 4).
Proof.
  apply (proj1 (offset_malloc_iff_offset_not_multiple windows
                  allocator_malloc.instance 100 16 4 0%Z eq_refl
                  ltac:(discriminate))).
  vm_compute. discriminate.
Defined.

(** * Which primitive the plain overload calls *)

(** C3, as stated, fails: a POSIX target other than Apple has aligned
    allocation ([memalign]), yet the plain [allocate] calls [malloc], and so
    no primitive that takes the minimum alignment as its alignment. *)
Lemma posix_plain_allocate_uses_malloc :
  has_aligned_allocate linux = true
  /\ allocator_malloc.allocate linux allocator_malloc.instance 32 0%Z
     = call (malloc 32)
  /\ ~ (has_aligned_allocate linux = true ->
        exists c,
          requested_alignment c
          = Some (EASTL_SYSTEM_ALLOCATOR_MIN_ALIGNMENT linux)
          /\ allocator_malloc.allocate linux allocator_malloc.instance 32 0%Z
             = call c).
Proof.
  split; [reflexivity | split; [reflexivity | ]].
  intros H. destruct (H eq_refl) as [c [Hal Hc]].
  apply call_inj in Hc. subst c. discriminate Hal.
Qed.

(** C3, amended.  The plain [allocate] calls the aligned primitive with the
    minimum alignment on the targets that have aligned allocation and are
    Microsoft targets, where that primitive is [_aligned_malloc]; on every
    other target, with aligned allocation or without it, it calls [malloc]
    with the requested size.  The [flags] argument has no effect. *)
Theorem plain_allocate_dispatch
    (P : platform) (this : allocator_malloc.t) (n : size_t) (flags : c_int) :
  (has_aligned_allocate P = true -> EA_PLATFORM_MICROSOFT P = true ->
     allocator_malloc.allocate P this n flags
     = call (_aligned_malloc n (EASTL_SYSTEM_ALLOCATOR_MIN_ALIGNMENT P))
     /\ aligned_allocate P n (EASTL_SYSTEM_ALLOCATOR_MIN_ALIGNMENT P)
        = _aligned_malloc n (EASTL_SYSTEM_ALLOCATOR_MIN_ALIGNMENT P))
  /\ (has_aligned_allocate P = true -> EA_PLATFORM_MICROSOFT P = false ->
     allocator_malloc.allocate P this n flags = call (malloc n))
  /\ (has_aligned_allocate P = false ->
     allocator_malloc.allocate P this n flags = call (malloc n))
  /\ (forall flags',
     allocator_malloc.allocate P this n flags'
     = allocator_malloc.allocate P this n flags).
Proof.
  repeat split; intros; dispatch; reflexivity.
Qed.

Lemma plain_allocate_dispatch_witness :
  allocator_malloc.allocate windows allocator_malloc.instance 32 0%Z
  = call (_aligned_malloc 32 16)
  /\ allocator_malloc.allocate linux allocator_malloc.instance 32 0%Z
     = call (malloc 32)
  /\ allocator_malloc.allocate macos allocator_malloc.instance 32 0%Z
     = call (malloc 32).
Proof.
  split; [ | split].
  - apply (proj1 (plain_allocate_dispatch windows allocator_malloc.instance
                    32 0%Z)); reflexivity.
  - apply (proj1 (proj2 (plain_allocate_dispatch linux
                           allocator_malloc.instance 32 0%Z))); reflexivity.
  - apply (proj1 (proj2 (proj2 (plain_allocate_dispatch macos
                           allocator_malloc.instance 32 0%Z)))); reflexivity.
Defined.

(** * Targets without aligned allocation *)

(** C4.  Where no aligned primitive exists, the aligned [allocate] calls
    [malloc] with the requested size if and only if the alignment is at most
    the platform minimum and the offset is a multiple of the alignment, and
    returns null for every other alignment and offset. *)
Theorem plain_only_aligned_dispatch
    (P : platform) (this : allocator_malloc.t)
    (n alignment alignmentOffset : size_t) (flags : c_int) :
  has_aligned_allocate P = false ->
  alignment <> 0 ->
  (allocator_malloc.allocate_aligned P this n alignment alignmentOffset flags
   = call (malloc n)
   <-> alignment <= EASTL_SYSTEM_ALLOCATOR_MIN_ALIGNMENT P
       /\ alignmentOffset mod alignment = 0)
  /\ (allocator_malloc.allocate_aligned P this n alignment alignmentOffset
        flags = Return NULL
      <-> ~ (alignment <= EASTL_SYSTEM_ALLOCATOR_MIN_ALIGNMENT P
             /\ alignmentOffset mod alignment = 0)).
Proof.
  intros Hcap Ha. dispatch.
  destruct (N.leb_spec alignment (EASTL_SYSTEM_ALLOCATOR_MIN_ALIGNMENT P))
    as [Hle | Hgt];
    [destruct (N.eqb_spec (alignmentOffset mod alignment) 0) as [E | E] | ];
    (split; split; intros H);
    solve [reflexivity | discriminate H | tauto | lia
          | exfalso; apply H; tauto].
Qed.

(** 64-byte alignment at offset 3 cannot be met with a minimum alignment of
    16 and no aligned primitive. *)
Lemma plain_only_aligned_dispatch_witness :
  EASTL_SYSTEM_ALLOCATOR_MIN_ALIGNMENT macos = 16
  /\ allocator_malloc.allocate_aligned macos allocator_malloc.instance
       100 64 3 0%Z = Return NULL.
Proof.
  split; [reflexivity | ].
  apply (proj2 (plain_only_aligned_dispatch macos allocator_malloc.instance
                  100 64 3 0%Z eq_refl ltac:(discriminate))).
  vm_compute. intros [H _]. apply H. reflexivity.
Defined.

(** * Requests that cannot be met *)

(** C5.  A request that the specification's dispatch rules cannot meet
    returns null with no call to the C library and the heap untouched.  A
    request they can meet makes exactly one call, at the requested alignment
    (or [malloc] when the alignment is at most the minimum), and returns
    whatever that call returned, so a null from an exhausted library reaches
    the caller the same way.  No path raises or calls twice. *)
Theorem unsatisfiable_request_returns_null
    {heap : Type} (P : platform) (L : libc heap) (this : allocator_malloc.t)
    (n alignment alignmentOffset : size_t) (flags : c_int) (h : heap) :
  alignment <> 0 ->
  (spec_satisfiable P alignment alignmentOffset = false ->
     allocator_malloc.allocate_aligned P this n alignment alignmentOffset
       flags = Return NULL
     /\ run L (allocator_malloc.allocate_aligned P this n alignment
                 alignmentOffset flags) h = Some (NULL, h, []))
  /\ (spec_satisfiable P alignment alignmentOffset = true ->
     exists c,
       allocator_malloc.allocate_aligned P this n alignment alignmentOffset
         flags = call c
       /\ (requested_alignment c = Some alignment
           \/ (c = malloc n
               /\ alignment <= EASTL_SYSTEM_ALLOCATOR_MIN_ALIGNMENT P))
       /\ run L (allocator_malloc.allocate_aligned P this n alignment
                   alignmentOffset flags) h
          = Some (fst (libc_alloc L c h), snd (libc_alloc L c h),
                  [Allocated c (fst (libc_alloc L c h))])).
Proof.
  intros Ha.
  assert (Hzero : alignmentOffset = 0 -> alignmentOffset mod alignment = 0)
    by (intros ->; apply N.Div0.mod_0_l).
  unfold spec_satisfiable. dispatch.
  destruct (EASTL_ALIGNED_MALLOC_AVAILABLE P), (EA_PLATFORM_MICROSOFT P);
    destruct (N.eqb_spec (alignmentOffset mod alignment) 0) as [E | E];
    destruct (N.leb_spec alignment (EASTL_SYSTEM_ALLOCATOR_MIN_ALIGNMENT P))
      as [Hle | Hgt];
    destruct (N.eqb_spec alignmentOffset 0) as [E0 | E0];
    cbn [andb orb negb];
    try (exfalso; apply E, Hzero, E0);
    (split; intros Hs; [try discriminate Hs; split; reflexivity | ]);
    try discriminate Hs;
    eexists; (split; [reflexivity | ]);
    (split; [ | apply run_call]);
    solve [left; reflexivity | right; split; [reflexivity | assumption]].
Qed.

(** On a POSIX target 8-byte alignment at offset 3 cannot be met: null, no
    call.  On a Microsoft target the same request is one call to the offset
    primitive. *)
Lemma unsatisfiable_request_returns_null_witness :
  run (bump 16)
      (allocator_malloc.allocate_aligned linux allocator_malloc.instance
         100 8 3 0%Z) 20 = Some (NULL, 20, [])
  /\ exists c,
       allocator_malloc.allocate_aligned windows allocator_malloc.instance
         100 8 3 0%Z = call c.
Proof.
  split.
  - apply (proj1 (unsatisfiable_request_returns_null linux (bump 16)
                    allocator_malloc.instance 100 8 3 0%Z 20
                    ltac:(discriminate))).
    reflexivity.
  - destruct (proj2 (unsatisfiable_request_returns_null windows (bump 16)
                       allocator_malloc.instance 100 8 3 0%Z 20
                       ltac:(discriminate)) eq_refl) as [c [Hc _]].
    exists c. exact Hc.
Defined.

(** * Targets with aligned allocation but no offset primitive *)

(** C6.  Where an aligned primitive exists but no offset primitive, a
    request whose offset is a multiple of the alignment is one call to the
    aligned primitive, [memalign], with the requested alignment and size and
    without the offset; the block returned is the one [memalign] returned,
    and against a C library that honours its documentation a non-null block
    is a multiple of the (power-of-two) alignment. *)
Theorem multiple_offset_uses_aligned_allocate
    {heap : Type} (P : platform) (L : libc heap) (this : allocator_malloc.t)
    (n alignment alignmentOffset : size_t) (flags : c_int) (h : heap) :
  has_aligned_allocate P = true ->
  has_aligned_offset_allocate P = false ->
  alignment <> 0 ->
  alignmentOffset mod alignment = 0 ->
  allocator_malloc.allocate_aligned P this n alignment alignmentOffset flags
  = call (aligned_allocate P n alignment)
  /\ aligned_allocate P n alignment = memalign alignment n
  /\ run L (allocator_malloc.allocate_aligned P this n alignment
              alignmentOffset flags) h
     = Some (fst (libc_alloc L (memalign alignment n) h),
             snd (libc_alloc L (memalign alignment n) h),
             [Allocated (memalign alignment n)
                (fst (libc_alloc L (memalign alignment n) h))])
  /\ (conforming (EASTL_SYSTEM_ALLOCATOR_MIN_ALIGNMENT P) L ->
      is_pow2 alignment ->
      fst (libc_alloc L (memalign alignment n) h) <> NULL ->
      fst (libc_alloc L (memalign alignment n) h) mod alignment = 0).
Proof.
  intros Hav Hoff Ha Hmul.
  unfold has_aligned_offset_allocate, has_aligned_allocate in *.
  rewrite Hav in Hoff. cbn [andb] in Hoff.
  dispatch. rewrite Hmul. cbn [N.eqb].
  repeat split.
  - apply run_call.
  - intros HL Hp2 Hnn.
    destruct (HL (memalign alignment n) h) as [Hnull | Hal];
      [contradiction | exact (Hal Hp2)].
Qed.

(** 8-byte alignment at offset 8 on a POSIX target: [memalign(8, n)], and
    the block is 8-byte aligned. *)
Lemma multiple_offset_uses_aligned_allocate_witness :
  allocator_malloc.allocate_aligned linux allocator_malloc.instance
    100 8 8 0%Z = call (memalign 8 100)
  /\ run (bump 16)
       (allocator_malloc.allocate_aligned linux allocator_malloc.instance
          100 8 8 0%Z) 20
     = Some (24, 124, [Allocated (memalign 8 100) 24])
  /\ 24 mod 8 = 0.
Proof.
  pose proof (multiple_offset_uses_aligned_allocate linux (bump 16)
                allocator_malloc.instance 100 8 8 0%Z 20
                eq_refl eq_refl ltac:(discriminate) eq_refl)
    as [Hcall [_ [Hrun Hal]]].
  split; [exact Hcall | split; [exact Hrun | ]].
  apply Hal.
  - apply bump_conforming.
  - exists 3. reflexivity.
  - discriminate.
Defined.

(** * Pairing of allocation and release *)

(** The primitives either overload can call all belong to the family the
    target releases with: the [_aligned_] family exactly where the offset
    primitive exists. *)
Lemma allocation_family
    (P : platform) (this : allocator_malloc.t)
    (n alignment alignmentOffset : size_t) (flags : c_int) (c : alloc_call) :
  allocator_malloc.allocate P this n flags = call c
  \/ allocator_malloc.allocate_aligned P this n alignment alignmentOffset
       flags = call c ->
  requires_aligned_free c = has_aligned_offset_allocate P.
Proof.
  intros Hc. unfold has_aligned_offset_allocate.
  destruct Hc as [Hc | Hc]; dispatch.
  - destruct (EASTL_ALIGNED_MALLOC_AVAILABLE P),
      (EA_PLATFORM_MICROSOFT P); cbn [andb] in *;
      apply call_inj in Hc; subst c; reflexivity.
  - destruct (EASTL_ALIGNED_MALLOC_AVAILABLE P),
      (EA_PLATFORM_MICROSOFT P); cbn [andb] in *;
      repeat match type of Hc with
        | context [match ?x with _ => _ end] => destruct x
        end;
      try discriminate Hc;
      apply call_inj in Hc; subst c; reflexivity.
Qed.

Lemma deallocate_by_capability
    (P : platform) (this : allocator_malloc.t) (p : void_ptr) (size : size_t) :
  allocator_malloc.deallocate P this p size
  = release (if has_aligned_offset_allocate P then _aligned_free p
             else free p).
Proof.
  unfold allocator_malloc.deallocate, has_aligned_offset_allocate.
  destruct (EASTL_ALIGNED_MALLOC_AVAILABLE P && EA_PLATFORM_MICROSOFT P);
    reflexivity.
Qed.

(** Allocating with the aligned overload and then deallocating the block
    makes two calls: the allocation and its paired release. *)
Lemma allocate_then_deallocate_run
    {heap : Type} (P : platform) (L : libc heap) (this : allocator_malloc.t)
    (n alignment alignmentOffset size : size_t) (flags : c_int)
    (c : alloc_call) (h : heap) :
  allocator_malloc.allocate_aligned P this n alignment alignmentOffset flags
  = call c ->
  run L (bind (allocator_malloc.allocate_aligned P this n alignment
                 alignmentOffset flags)
              (fun p => allocator_malloc.deallocate P this p size)) h
  = Some (tt,
          libc_free L (matching_free c (fst (libc_alloc L c h)))
            (snd (libc_alloc L c h)),
          [Allocated c (fst (libc_alloc L c h));
           Released (matching_free c (fst (libc_alloc L c h)))]).
Proof.
  intros Hc.
  pose proof (allocation_family P this n alignment alignmentOffset flags c
                (or_intror Hc)) as Hfam.
  rewrite Hc. unfold call. cbn [bind run].
  destruct (libc_alloc L c h) as [p h1]. cbn [fst snd].
  rewrite deallocate_by_capability, run_release.
  unfold matching_free. rewrite Hfam. reflexivity.
Qed.

(** C7.  Whatever primitive either [allocate] overload calls, [deallocate]
    calls the release primitive the C library pairs with it.  Where aligned
    allocation has its own release call (Microsoft targets with aligned
    allocation) every allocation is an [_aligned_] one and every release is
    [_aligned_free]; on every other target every allocation is [malloc] or
    [memalign] and every release is [free].  The size argument of
    [deallocate] has no effect. *)
Theorem deallocate_matches_allocate
    (P : platform) (this : allocator_malloc.t)
    (n alignment alignmentOffset : size_t) (flags : c_int)
    (c : alloc_call) (p : void_ptr) (size : size_t) :
  allocator_malloc.allocate P this n flags = call c
  \/ allocator_malloc.allocate_aligned P this n alignment alignmentOffset
       flags = call c ->
  allocator_malloc.deallocate P this p size = release (matching_free c p)
  /\ requires_aligned_free c = has_aligned_offset_allocate P
  /\ (has_aligned_offset_allocate P = true ->
      allocator_malloc.deallocate P this p size = release (_aligned_free p))
  /\ (has_aligned_offset_allocate P = false ->
      allocator_malloc.deallocate P this p size = release (free p))
  /\ (forall size',
      allocator_malloc.deallocate P this p size'
      = allocator_malloc.deallocate P this p size).
Proof.
  intros Hc.
  pose proof (allocation_family P this n alignment alignmentOffset flags c Hc)
    as Hfam.
  unfold matching_free. rewrite Hfam.
  repeat split; intros; rewrite !deallocate_by_capability;
    try match goal with H : _ = _ |- _ => rewrite H end; reflexivity.
Qed.

Lemma deallocate_matches_allocate_witness :
  allocator_malloc.deallocate windows allocator_malloc.instance 28 100
  = release (_aligned_free 28)
  /\ allocator_malloc.deallocate linux allocator_malloc.instance 24 100
     = release (free 24).
Proof.
  split.
  - apply (proj1 (deallocate_matches_allocate windows
                    allocator_malloc.instance 100 16 4 0%Z
                    (_aligned_offset_malloc 100 16 4) 28 100
                    (or_intror eq_refl))).
  - apply (proj1 (deallocate_matches_allocate linux
                    allocator_malloc.instance 100 8 8 0%Z
                    (memalign 8 100) 24 100
                    (or_intror eq_refl))).
Defined.

(** * Equality and the diagnostic name *)

(** C8.  Any two instances compare equal with [==] and not unequal with
    [!=], however they were constructed, named, assigned or renamed. *)
Theorem instances_always_equal :
  (forall a b : allocator_malloc.t,
     allocator_malloc.operator_eq a b = true
     /\ allocator_malloc.operator_ne a b = false)
  /\ (forall u v : usage,
     allocator_malloc.operator_eq (build u) (build v) = true
     /\ allocator_malloc.operator_ne (build u) (build v) = false)
  /\ (forall name1 name2 : c_str,
     allocator_malloc.operator_eq (allocator_malloc.construct name1)
       (allocator_malloc.construct name2) = true).
Proof.
  repeat split.
Qed.

(** Every way of obtaining an instance yields the one value of the class. *)
Lemma build_instance (u : usage) : build u = allocator_malloc.instance.
Proof.
  induction u as [pName | x IH | x IH pName | dst IHd src IHs | x IH pName];
    cbn [build]; try reflexivity.
  - unfold allocator_malloc.operator_assign. exact IHd.
  - unfold allocator_malloc.set_name. exact IH.
Qed.

(** C9.  [get_name] returns the fixed string "allocator_malloc" for every
    instance: the constructors and [set_name] drop the name they are given,
    so no sequence of constructions and renamings changes it. *)
Theorem get_name_is_constant :
  (forall a : allocator_malloc.t,
     allocator_malloc.get_name a = "allocator_malloc"%string)
  /\ (forall u : usage,
     allocator_malloc.get_name (build u) = "allocator_malloc"%string)
  /\ (forall (a : allocator_malloc.t) (pName : c_str),
     allocator_malloc.set_name a pName = a
     /\ allocator_malloc.get_name (allocator_malloc.set_name a pName)
        = allocator_malloc.get_name a)
  /\ (forall (a : allocator_malloc.t) (pName1 pName2 : c_str),
     allocator_malloc.construct pName1 = allocator_malloc.construct pName2
     /\ allocator_malloc.copy_construct_named a pName1
        = allocator_malloc.copy_construct a).
Proof.
  repeat split.
Qed.

(** * Totality of the aligned overload *)

(** C10.  For a power-of-two alignment the remainder the aligned [allocate]
    takes is defined, so the function has no undefined behaviour: it either
    tail-calls one primitive or returns null, and its run against any C
    library yields a result. *)
Theorem allocate_aligned_total
    (P : platform) (this : allocator_malloc.t)
    (n alignment alignmentOffset : size_t) (flags : c_int) :
  is_pow2 alignment ->
  1 <= alignment
  /\ size_t_mod alignmentOffset alignment
     = Some (alignmentOffset mod alignment)
  /\ allocator_malloc.allocate_aligned P this n alignment alignmentOffset
       flags <> Undefined
  /\ ((exists c,
        allocator_malloc.allocate_aligned P this n alignment alignmentOffset
          flags = call c)
      \/ allocator_malloc.allocate_aligned P this n alignment alignmentOffset
           flags = Return NULL)
  /\ (forall (heap : Type) (L : libc heap) (h : heap),
      exists r,
        run L (allocator_malloc.allocate_aligned P this n alignment
                 alignmentOffset flags) h = Some r).
Proof.
  intros Hp2. pose proof (is_pow2_nonzero _ Hp2) as Ha.
  split; [lia | ].
  split; [apply size_t_mod_defined; exact Ha | ].
  assert (Hshape :
    (exists c,
        allocator_malloc.allocate_aligned P this n alignment alignmentOffset
          flags = call c)
    \/ allocator_malloc.allocate_aligned P this n alignment alignmentOffset
         flags = Return NULL).
  { dispatch.
    destruct (EASTL_ALIGNED_MALLOC_AVAILABLE P), (EA_PLATFORM_MICROSOFT P),
      (alignmentOffset mod alignment =? 0),
      (alignment <=? EASTL_SYSTEM_ALLOCATOR_MIN_ALIGNMENT P);
      solve [left; eexists; reflexivity | right; reflexivity]. }
  split; [ | split; [exact Hshape | ]].
  - destruct Hshape as [[c ->] | ->]; discriminate.
  - intros heap L h.
    destruct Hshape as [[c ->] | ->].
    + rewrite run_call. eexists. reflexivity.
    + eexists. reflexivity.
Qed.

Lemma allocate_aligned_total_witness :
  size_t_mod 3 64 = Some 3
  /\ allocator_malloc.allocate_aligned linux allocator_malloc.instance
       100 64 3 0%Z <> Undefined.
Proof.
  pose proof (allocate_aligned_total linux allocator_malloc.instance
                100 64 3 0%Z (ex_intro _ 6 eq_refl)) as [_ [Hmod [Hdef _]]].
  split; [exact Hmod | exact Hdef].
Defined.

(** Without the precondition the remainder is undefined wherever it is
    evaluated: a zero alignment has undefined behaviour on every target. *)
Lemma allocate_aligned_zero_alignment_undefined
    (P : platform) (this : allocator_malloc.t)
    (n alignmentOffset : size_t) (flags : c_int) :
  allocator_malloc.allocate_aligned P this n 0 alignmentOffset flags
  = Undefined.
Proof.
  unfold allocator_malloc.allocate_aligned.
  destruct (EASTL_ALIGNED_MALLOC_AVAILABLE P); [reflexivity | ].
  destruct (EASTL_SYSTEM_ALLOCATOR_MIN_ALIGNMENT P); reflexivity.
Qed.

(** * The plain overload: alignment of the block *)

(** X1.  Against a C library that honours its documentation, a non-null
    block returned by the plain [allocate] is a multiple of the platform
    minimum alignment on every target, whether it came from
    [_aligned_malloc] or from [malloc]; it comes from exactly one call, of
    the requested size. *)
Theorem plain_allocate_meets_min_alignment
    {heap : Type} (P : platform) (L : libc heap) (this : allocator_malloc.t)
    (n : size_t) (flags : c_int) (h h' : heap) (p : void_ptr)
    (tr : list event) :
  conforming (EASTL_SYSTEM_ALLOCATOR_MIN_ALIGNMENT P) L ->
  is_pow2 (EASTL_SYSTEM_ALLOCATOR_MIN_ALIGNMENT P) ->
  run L (allocator_malloc.allocate P this n flags) h = Some (p, h', tr) ->
  p <> NULL ->
  p mod EASTL_SYSTEM_ALLOCATOR_MIN_ALIGNMENT P = 0
  /\ exists c, tr = [Allocated c p] /\ requested_size c = n.
Proof.
  intros HL Hmin Hrun Hp.
  unfold allocator_malloc.allocate in Hrun.
  destruct (EASTL_ALIGNED_MALLOC_AVAILABLE P && EA_PLATFORM_MICROSOFT P);
    rewrite run_call in Hrun; injection Hrun as Ep _ Et; subst p;
    match type of Et with
    | [Allocated ?c _] = _ => destruct (HL c h) as [Hnull | Hal]
    end; try contradiction; cbn in Hal;
    (split; [ | eexists; split; [symmetry; exact Et | reflexivity]]).
  - exact (Hal Hmin).
  - exact Hal.
Qed.

Lemma plain_allocate_meets_min_alignment_witness :
  run (bump 16)
      (allocator_malloc.allocate windows allocator_malloc.instance 100 0%Z) 20
  = Some (32, 132, [Allocated (_aligned_malloc 100 16) 32])
  /\ 32 mod 16 = 0.
Proof.
  split; [reflexivity | ].
  apply (plain_allocate_meets_min_alignment windows (bump 16)
           allocator_malloc.instance 100 0%Z 20 132 32
           [Allocated (_aligned_malloc 100 16) 32]).
  - apply bump_conforming.
  - exists 4. reflexivity.
  - reflexivity.
  - discriminate.
Defined.

(** * Instances are interchangeable *)

(** X2.  A block allocated through one instance, by either overload, is
    released through any other instance with the primitive paired with the
    one that allocated it: the equality the class reports between any two
    instances is matched by what [deallocate] does. *)
Theorem any_instance_releases_any_block
    (P : platform) (a b : allocator_malloc.t)
    (n alignment alignmentOffset : size_t) (flags : c_int)
    (c : alloc_call) (p : void_ptr) (size : size_t) :
  allocator_malloc.allocate P a n flags = call c
  \/ allocator_malloc.allocate_aligned P a n alignment alignmentOffset flags
     = call c ->
  allocator_malloc.operator_eq a b = true
  /\ allocator_malloc.deallocate P b p size = release (matching_free c p).
Proof.
  intros Hc. split; [reflexivity | ].
  rewrite deallocate_by_capability. unfold matching_free.
  rewrite (allocation_family P a n alignment alignmentOffset flags c Hc).
  reflexivity.
Qed.

Lemma any_instance_releases_any_block_witness :
  allocator_malloc.deallocate windows
    (build (SetName (CopyConstruct (Construct None)) (Some "pool"%string)))
    28 100
  = release (_aligned_free 28).
Proof.
  apply (any_instance_releases_any_block windows
           (build (Construct (Some "vector"%string)))
           (build (SetName (CopyConstruct (Construct None))
                     (Some "pool"%string)))
           100 16 4 0%Z (_aligned_offset_malloc 100 16 4) 28 100
           (or_intror eq_refl)).
Defined.

(** * The size is passed through *)

(** X3.  The primitive either overload calls receives the requested size
    unchanged, and the size takes no part in the choice: a request the
    aligned overload serves for one size it serves for every size, zero
    included, with a primitive asking for the same alignment and released
    the same way. *)
Theorem size_passed_unchanged
    (P : platform) (this : allocator_malloc.t)
    (n alignment alignmentOffset : size_t) (flags : c_int) (c : alloc_call) :
  allocator_malloc.allocate P this n flags = call c
  \/ allocator_malloc.allocate_aligned P this n alignment alignmentOffset
       flags = call c ->
  requested_size c = n
  /\ (forall n' : size_t,
        exists c',
          (allocator_malloc.allocate P this n flags = call c ->
           allocator_malloc.allocate P this n' flags = call c')
          /\ (allocator_malloc.allocate_aligned P this n alignment
                alignmentOffset flags = call c ->
              allocator_malloc.allocate_aligned P this n' alignment
                alignmentOffset flags = call c')
          /\ requested_size c' = n'
          /\ requested_alignment c' = requested_alignment c
          /\ requires_aligned_free c' = requires_aligned_free c).
Proof.
  intros Hc.
  assert (Hshape :
    c = malloc n \/ c = memalign alignment n
    \/ c = _aligned_malloc n (EASTL_SYSTEM_ALLOCATOR_MIN_ALIGNMENT P)
    \/ c = _aligned_malloc n alignment
    \/ c = _aligned_offset_malloc n alignment alignmentOffset).
  { destruct Hc as [Hc | Hc]; dispatch;
      repeat match type of Hc with
        | context [match ?x with _ => _ end] => destruct x
        end;
      try discriminate Hc; apply call_inj in Hc; subst c; tauto. }
  split.
  - destruct Hshape as [-> | [-> | [-> | [-> | ->]]]]; reflexivity.
  - intros n'.
    destruct Hshape as [-> | [-> | [-> | [-> | ->]]]];
      [ exists (malloc n') | exists (memalign alignment n')
      | exists (_aligned_malloc n' (EASTL_SYSTEM_ALLOCATOR_MIN_ALIGNMENT P))
      | exists (_aligned_malloc n' alignment)
      | exists (_aligned_offset_malloc n' alignment alignmentOffset) ];
      (split; [ | split; [ | repeat split]]);
      intros H; dispatch;
      repeat match type of H with
        | context [match ?x with _ => _ end] => destruct x
        end;
      try discriminate H; apply call_inj in H;
      solve [reflexivity | discriminate H
            | injection H as ->; reflexivity
            | injection H as -> ->; reflexivity].
Qed.

Lemma size_passed_unchanged_witness :
  requested_size (memalign 8 100) = 100
  /\ exists c',
       allocator_malloc.allocate_aligned linux allocator_malloc.instance
         0 8 8 0%Z = call c'
       /\ requested_size c' = 0.
Proof.
  destruct (size_passed_unchanged linux allocator_malloc.instance
              100 8 8 0%Z (memalign 8 100) (or_intror eq_refl))
    as [Hsize Hall].
  split; [exact Hsize | ].
  destruct (Hall 0) as [c' [_ [Hal [Hsz _]]]].
  exists c'. split; [apply Hal; reflexivity | exact Hsz].
Defined.

(** * Detection of aligned allocation *)

(** X4.  A build that defines EASTL_ALIGNED_MALLOC_AVAILABLE as 0 overrides
    the header's detection: whatever platform macros are set, Microsoft
    included, the class then uses [malloc] and [free] only, and the aligned
    overload serves nothing above the minimum alignment. *)
Theorem predefined_zero_is_malloc_only
    (P : platform) (this : allocator_malloc.t)
    (n alignment alignmentOffset size : size_t) (flags : c_int)
    (p : void_ptr) :
  predefined_ALIGNED_MALLOC_AVAILABLE P = Some 0%Z ->
  alignment <> 0 ->
  allocator_malloc.allocate P this n flags = call (malloc n)
  /\ allocator_malloc.deallocate P this p size = release (free p)
  /\ (allocator_malloc.allocate_aligned P this n alignment alignmentOffset
        flags = call (malloc n)
      \/ allocator_malloc.allocate_aligned P this n alignment alignmentOffset
           flags = Return NULL)
  /\ (EASTL_SYSTEM_ALLOCATOR_MIN_ALIGNMENT P < alignment ->
      allocator_malloc.allocate_aligned P this n alignment alignmentOffset
        flags = Return NULL).
Proof.
  intros Hpre Ha.
  assert (Hav : EASTL_ALIGNED_MALLOC_AVAILABLE P = false)
    by (unfold EASTL_ALIGNED_MALLOC_AVAILABLE; rewrite Hpre; reflexivity).
  dispatch.
  repeat split.
  - destruct (alignment <=? EASTL_SYSTEM_ALLOCATOR_MIN_ALIGNMENT P),
      (alignmentOffset mod alignment =? 0); tauto.
  - intros Hgt.
    destruct (N.leb_spec alignment (EASTL_SYSTEM_ALLOCATOR_MIN_ALIGNMENT P));
      [lia | reflexivity].
Qed.

Lemma predefined_zero_is_malloc_only_witness :
  allocator_malloc.allocate windows_malloc_only allocator_malloc.instance
    100 0%Z = call (malloc 100)
  /\ allocator_malloc.deallocate windows_malloc_only allocator_malloc.instance
       32 100 = release (free 32)
  /\ allocator_malloc.allocate_aligned windows_malloc_only
       allocator_malloc.instance 100 64 0 0%Z = Return NULL.
Proof.
  pose proof (predefined_zero_is_malloc_only windows_malloc_only
                allocator_malloc.instance 100 64 0 100 0%Z 32
                eq_refl ltac:(discriminate)) as [Hal [Hde [_ Hover]]].
  split; [exact Hal | split; [exact Hde | ]].
  apply Hover. reflexivity.
Defined.

(** X5.  With the header's own detection (no definition by the build), a
    request above the minimum alignment whose offset is a multiple of the
    alignment is served by [_aligned_malloc] on Microsoft targets, by
    [memalign] on POSIX targets other than Apple, and refused without a call
    on every other target, Apple included. *)
Theorem detected_over_aligned_request
    (P : platform) (this : allocator_malloc.t)
    (n alignment alignmentOffset : size_t) (flags : c_int) :
  predefined_ALIGNED_MALLOC_AVAILABLE P = None ->
  EASTL_SYSTEM_ALLOCATOR_MIN_ALIGNMENT P < alignment ->
  alignmentOffset mod alignment = 0 ->
  (EA_PLATFORM_MICROSOFT P = true ->
     allocator_malloc.allocate_aligned P this n alignment alignmentOffset
       flags = call (_aligned_malloc n alignment))
  /\ (EA_PLATFORM_MICROSOFT P = false -> EA_PLATFORM_POSIX P = true ->
      EA_PLATFORM_APPLE P = false ->
     allocator_malloc.allocate_aligned P this n alignment alignmentOffset
       flags = call (memalign alignment n))
  /\ (EA_PLATFORM_MICROSOFT P = false ->
      EA_PLATFORM_POSIX P = false \/ EA_PLATFORM_APPLE P = true ->
     allocator_malloc.allocate_aligned P this n alignment alignmentOffset
       flags = Return NULL).
Proof.
  intros Hpre Hgt Hmul.
  assert (Ha : alignment <> 0) by lia.
  assert (Hleb : (alignment <=? EASTL_SYSTEM_ALLOCATOR_MIN_ALIGNMENT P)
                 = false) by (apply N.leb_gt; exact Hgt).
  unfold allocator_malloc.allocate_aligned, EASTL_ALIGNED_MALLOC_AVAILABLE.
  rewrite Hpre, (size_t_mod_defined _ _ Ha), Hmul, Hleb. cbn [N.eqb].
  repeat split.
  - intros ->. rewrite orb_true_r. reflexivity.
  - intros -> -> ->. reflexivity.
  - intros -> [-> | ->]; [reflexivity | ].
    rewrite andb_false_r. reflexivity.
Qed.

Lemma detected_over_aligned_request_witness :
  allocator_malloc.allocate_aligned macos allocator_malloc.instance
    100 64 0 0%Z = Return NULL
  /\ allocator_malloc.allocate_aligned linux allocator_malloc.instance
       100 64 0 0%Z = call (memalign 64 100).
Proof.
  split.
  - apply (proj2 (proj2 (detected_over_aligned_request macos
                           allocator_malloc.instance 100 64 0 0%Z
                           eq_refl eq_refl eq_refl)));
      [reflexivity | right; reflexivity].
  - apply (proj1 (proj2 (detected_over_aligned_request linux
                           allocator_malloc.instance 100 64 0 0%Z
                           eq_refl eq_refl eq_refl))); reflexivity.
Defined.

(** * The offset counts modulo the alignment *)

(** X6.  Where no offset primitive exists, the aligned overload looks at the
    offset only through its remainder by the alignment: adding any multiple
    of the alignment to the offset changes nothing, neither the choice nor
    the call made. *)
Theorem offset_counts_modulo_alignment
    (P : platform) (this : allocator_malloc.t)
    (n alignment alignmentOffset k : size_t) (flags : c_int) :
  has_aligned_offset_allocate P = false ->
  allocator_malloc.allocate_aligned P this n alignment
    (alignmentOffset + k * alignment) flags
  = allocator_malloc.allocate_aligned P this n alignment alignmentOffset
      flags.
Proof.
  intros Hcap.
  assert (Hmod : size_t_mod (alignmentOffset + k * alignment) alignment
                 = size_t_mod alignmentOffset alignment).
  { unfold size_t_mod. destruct (alignment =? 0); [reflexivity | ].
    rewrite N.Div0.mod_add. reflexivity. }
  unfold has_aligned_offset_allocate in Hcap.
  unfold allocator_malloc.allocate_aligned. rewrite Hmod.
  destruct (EASTL_ALIGNED_MALLOC_AVAILABLE P); [ | reflexivity].
  cbn [andb] in Hcap. rewrite Hcap. reflexivity.
Qed.

Lemma offset_counts_modulo_alignment_witness :
  allocator_malloc.allocate_aligned linux allocator_malloc.instance
    100 8 (3 + 5 * 8) 0%Z
  = allocator_malloc.allocate_aligned linux allocator_malloc.instance
      100 8 3 0%Z.
Proof.
  apply (offset_counts_modulo_alignment linux allocator_malloc.instance
           100 8 3 5 0%Z eq_refl).
Defined.

(** * Requests every target serves *)

(** X7.  A request with a non-zero alignment is served on every target with
    a given minimum alignment exactly when the alignment is at most that
    minimum and the offset is a multiple of the alignment; any other request
    is refused on some target. *)
Theorem served_on_every_target_iff
    (this : allocator_malloc.t)
    (n alignment alignmentOffset : size_t) (flags : c_int)
    (min_alignment : size_t) :
  alignment <> 0 ->
  (forall P : platform,
     EASTL_SYSTEM_ALLOCATOR_MIN_ALIGNMENT P = min_alignment ->
     exists c,
       allocator_malloc.allocate_aligned P this n alignment alignmentOffset
         flags = call c)
  <-> alignment <= min_alignment /\ alignmentOffset mod alignment = 0.
Proof.
  intros Ha. split.
  - intros Hall.
    destruct (Hall (freestanding min_alignment) eq_refl) as [c Hc].
    unfold allocator_malloc.allocate_aligned in Hc.
    rewrite (size_t_mod_defined _ _ Ha) in Hc. cbn in Hc.
    destruct (N.leb_spec alignment min_alignment) as [Hle | Hgt];
      [ | discriminate Hc].
    destruct (N.eqb_spec (alignmentOffset mod alignment) 0) as [E | E];
      [ | discriminate Hc].
    split; assumption.
  - intros [Hle Hmul] P HP. subst min_alignment.
    apply N.leb_le in Hle.
    dispatch. rewrite Hmul. cbn [N.eqb].
    destruct (EASTL_ALIGNED_MALLOC_AVAILABLE P), (EA_PLATFORM_MICROSOFT P);
      eexists; reflexivity.
Qed.

Lemma served_on_every_target_iff_witness :
  (exists c,
     allocator_malloc.allocate_aligned linux allocator_malloc.instance
       100 8 8 0%Z = call c)
  /\ exists c,
       allocator_malloc.allocate_aligned macos allocator_malloc.instance
         100 8 8 0%Z = call c.
Proof.
  assert (Ha : 8 <> 0) by discriminate.
  assert (Hok : 8 <= 16 /\ 8 mod 8 = 0)
    by (split; [discriminate | reflexivity]).
  pose proof (proj2 (served_on_every_target_iff allocator_malloc.instance
                       100 8 8 0%Z 16 Ha) Hok) as Hall.
  split; [exact (Hall linux eq_refl) | exact (Hall macos eq_refl)].
Defined.

(** * Allocating and then deallocating *)

(** X8.  Allocating with the aligned overload through one instance and
    deallocating the result through another never has undefined behaviour
    for a non-zero alignment and makes, in order, either the allocation call
    and its paired release, or, when the request is refused, the single call
    [free(NULL)]. *)
Theorem aligned_round_trip
    {heap : Type} (P : platform) (L : libc heap) (a b : allocator_malloc.t)
    (n alignment alignmentOffset size : size_t) (flags : c_int) (h : heap) :
  alignment <> 0 ->
  (exists c,
     allocator_malloc.allocate_aligned P a n alignment alignmentOffset flags
     = call c
     /\ run L (bind (allocator_malloc.allocate_aligned P a n alignment
                       alignmentOffset flags)
                    (fun p => allocator_malloc.deallocate P b p size)) h
        = Some (tt,
                libc_free L (matching_free c (fst (libc_alloc L c h)))
                  (snd (libc_alloc L c h)),
                [Allocated c (fst (libc_alloc L c h));
                 Released (matching_free c (fst (libc_alloc L c h)))]))
  \/ (allocator_malloc.allocate_aligned P a n alignment alignmentOffset flags
      = Return NULL
      /\ run L (bind (allocator_malloc.allocate_aligned P a n alignment
                        alignmentOffset flags)
                     (fun p => allocator_malloc.deallocate P b p size)) h
         = Some (tt, libc_free L (free NULL) h, [Released (free NULL)])).
Proof.
  intros Ha. destruct a, b.
  assert (Hshape :
    (exists c,
       allocator_malloc.allocate_aligned P allocator_malloc.instance n
         alignment alignmentOffset flags = call c)
    \/ (allocator_malloc.allocate_aligned P allocator_malloc.instance n
          alignment alignmentOffset flags = Return NULL
        /\ has_aligned_offset_allocate P = false)).
  { dispatch.
    destruct (EASTL_ALIGNED_MALLOC_AVAILABLE P), (EA_PLATFORM_MICROSOFT P),
      (alignmentOffset mod alignment =? 0),
      (alignment <=? EASTL_SYSTEM_ALLOCATOR_MIN_ALIGNMENT P);
      solve [left; eexists; reflexivity | right; split; reflexivity]. }
  destruct Hshape as [[c Hc] | [Hnull Hcap]].
  - left. exists c. split; [exact Hc | ].
    apply allocate_then_deallocate_run. exact Hc.
  - right. split; [exact Hnull | ].
    rewrite Hnull. cbn [bind].
    rewrite deallocate_by_capability, Hcap, run_release. reflexivity.
Qed.

Lemma aligned_round_trip_witness :
  run (bump 16)
      (bind (allocator_malloc.allocate_aligned linux allocator_malloc.instance
               100 8 3 0%Z)
            (fun p => allocator_malloc.deallocate linux
                        allocator_malloc.instance p 100)) 20
  = Some (tt, 20, [Released (free NULL)]).
Proof.
  destruct (aligned_round_trip linux (bump 16) allocator_malloc.instance
              allocator_malloc.instance 100 8 3 100 0%Z 20
              ltac:(discriminate)) as [[c [Hc _]] | [_ Hrun]].
  - vm_compute in Hc. discriminate Hc.
  - exact Hrun.
Defined.

(** X9.  Allocating with the plain overload through one instance and
    deallocating the result through another makes exactly two calls on
    every target: one allocation of the requested size, then the release
    paired with it. *)
Theorem plain_round_trip
    {heap : Type} (P : platform) (L : libc heap) (a b : allocator_malloc.t)
    (n size : size_t) (flags : c_int) (h : heap) :
  exists c,
    allocator_malloc.allocate P a n flags = call c
    /\ requested_size c = n
    /\ run L (bind (allocator_malloc.allocate P a n flags)
                (fun p => allocator_malloc.deallocate P b p size)) h
       = Some (tt,
               libc_free L (matching_free c (fst (libc_alloc L c h)))
                 (snd (libc_alloc L c h)),
               [Allocated c (fst (libc_alloc L c h));
                Released (matching_free c (fst (libc_alloc L c h)))]).
Proof.
  unfold allocator_malloc.allocate.
  destruct (EASTL_ALIGNED_MALLOC_AVAILABLE P && EA_PLATFORM_MICROSOFT P)
    eqn:Hcap;
    eexists; (split; [reflexivity | split; [reflexivity | ]]);
    unfold call; cbn [bind run];
    match goal with
    | |- context [libc_alloc L ?c h] => destruct (libc_alloc L c h)
    end;
    cbn [fst snd]; rewrite deallocate_by_capability;
    unfold has_aligned_offset_allocate; rewrite Hcap, run_release;
    reflexivity.
Qed.
